(** * wrapper.h: the CTP header aggregation shim

    [src-tauri/wrapper.h] is a thirteen-line C preprocessor program: an
    include guard around two [#include] directives that pull in the vendor's
    market-data and trading API headers.  The file has no C++ of its own, so
    what it does is what the preprocessor does with it.

    The development has three layers:
    - [Text]: the bytes of the file, its physical lines and their lexical
      classification (blank / comment / directive / code);
    - [Cpp]: a small executable semantics of the preprocessor fragment the
      file is written in (conditional groups, [#define], [#undef],
      [#include]) over a macro table, an output of declarations and a log of
      the files opened;
    - [Wrapper]: the file itself run through that semantics, and the
      properties of its expansion. *)

From stdpp Require Import gmap strings list.
From Stdlib Require Import Ascii String.

Open Scope string_scope.

(** ** Text layer *)

Module Text.

(** Characters that cannot be written inside a string literal here. *)
Definition LF : ascii := ascii_of_nat 10.
Definition dquote : ascii := ascii_of_nat 34.

(** [quoted s] is [s] between double quotes, as in [#include "s"]. *)
Definition quoted (s : string) : string :=
  String dquote s +:+ String dquote EmptyString.

(** Physical lines: the text is cut at every line feed.  A text that does
    not end in a line feed ends in an unterminated last line. *)
Fixpoint lines_of (s : string) : list string :=
  match s with
  | EmptyString => [EmptyString]
  | String c s' =>
      if Ascii.eqb c LF then EmptyString :: lines_of s'
      else match lines_of s' with
           | [] => [String c EmptyString]
           | l :: ls => String c l :: ls
           end
  end.

(** The inverse: lines joined by single line feeds (no final line feed). *)
Fixpoint join_lines (ls : list string) : string :=
  match ls with
  | [] => EmptyString
  | [l] => l
  | l :: ls' => l +:+ String LF (join_lines ls')
  end.

(** Number of line terminators, what [wc -l] reports. *)
Fixpoint newline_count (s : string) : nat :=
  match s with
  | EmptyString => 0
  | String c s' => (if Ascii.eqb c LF then 1 else 0) + newline_count s'
  end.

Fixpoint ltrim (s : string) : string :=
  match s with
  | EmptyString => EmptyString
  | String c s' => if Ascii.is_space c then ltrim s' else s
  end.

Definition rtrim (s : string) : string := String.rev (ltrim (String.rev s)).

Definition trim (s : string) : string := rtrim (ltrim s).

Definition is_empty (s : string) : bool :=
  match s with EmptyString => true | _ => false end.

(** [starts_with p s]: [p] is a prefix of [s]. *)
Fixpoint starts_with (p s : string) : bool :=
  match p, s with
  | EmptyString, _ => true
  | String a p', String b s' => Ascii.eqb a b && starts_with p' s'
  | String _ _, EmptyString => false
  end.

(** Cut [s] at the first character satisfying [stop]: the part before it and
    the rest, which starts with that character (or is empty). *)
Fixpoint break_at (stop : ascii -> bool) (s : string) : string * string :=
  match s with
  | EmptyString => (EmptyString, EmptyString)
  | String c s' =>
      if stop c then (EmptyString, s)
      else let '(w, r) := break_at stop s' in (String c w, r)
  end.

(** The first blank-delimited word of [s], and what follows it. *)
Definition take_word (s : string) : string * string :=
  break_at Ascii.is_space (ltrim s).

(** Translation phase 3 for line comments: everything from a [//] that is not
    inside a double-quoted literal to the end of the line is dropped. *)
Fixpoint strip_comment_go (in_lit : bool) (s : string) : string :=
  match s with
  | EmptyString => EmptyString
  | String c s' =>
      if Ascii.eqb c dquote then String c (strip_comment_go (negb in_lit) s')
      else if negb in_lit && starts_with "//" s then EmptyString
      else String c (strip_comment_go in_lit s')
  end.

Definition strip_comment (s : string) : string := strip_comment_go false s.

(** Lexical kind of a physical line. *)
Inductive line_kind : Type :=
  | Blank        (* nothing but white space *)
  | Comment      (* a [//] comment and nothing else *)
  | Directive    (* first non-blank character is [#] *)
  | Code.        (* anything else: declarations, definitions, statements *)

Global Instance line_kind_eq_dec : EqDecision line_kind.
Proof. solve_decision. Defined.

Definition classify (l : string) : line_kind :=
  let s := ltrim l in
  if is_empty s then Blank
  else if starts_with "//" s then Comment
  else if starts_with "#" s then Directive
  else Code.

Definition count_kind (k : line_kind) (ls : list string) : nat :=
  List.length (filter (fun l => classify l = k) ls).

End Text.

(** ** The preprocessor fragment *)

Module Cpp.
Import Text.

(** *** Directives *)

(** One logical line after comment removal.  The fragment covers what the
    wrapper is written in, plus [#ifdef] and [#undef], so that a translation
    unit around the wrapper can test and remove the guard macro.  Every other
    directive is [DBad]: an error when it is reached in an active group.
    Outside the fragment, and absent from the wrapper: block comments, line
    splicing with a backslash, macro replacement inside program text, and a
    [//] inside an angle-bracket include path. *)
Inductive directive : Type :=
  | DNone                              (* blank, or a comment only *)
  | DIfdef (x : string)                (* #ifdef x *)
  | DIfndef (x : string)               (* #ifndef x *)
  | DEndif                             (* #endif *)
  | DDefine (x : string) (body : string)   (* #define x body *)
  | DUndef (x : string)                (* #undef x *)
  | DInclude (path : string)           (* #include "path" or <path> *)
  | DText (t : string)                 (* not a directive: program text *)
  | DBad (l : string).                 (* anything else starting with # *)

Definition is_ident_char (c : ascii) : bool :=
  let n := nat_of_ascii c in
  (((65 <=? n) && (n <=? 90)) || ((97 <=? n) && (n <=? 122))
   || ((48 <=? n) && (n <=? 57)) || (n =? 95))%nat.

(** The identifier [s] starts with, and what follows it. *)
Definition take_ident (s : string) : string * string :=
  break_at (fun c => negb (is_ident_char c)) s.

(** The operand of a directive that takes one macro name.  Tokens after the
    name only draw a warning from the compilers, so they are dropped. *)
Definition parse_name (k : string -> directive) (whole arg : string) : directive :=
  let '(x, _) := take_ident arg in
  if is_empty x then DBad whole else k x.

(** [#define x body]; function-like macros are outside the fragment. *)
Definition parse_define (whole arg : string) : directive :=
  let '(x, rest) := take_ident arg in
  if is_empty x || starts_with "(" rest then DBad whole
  else DDefine x (trim rest).

(** The operand of [#include]: a path between double quotes or between angle
    brackets; what follows the closing delimiter is dropped (a warning). *)
Definition parse_include (whole arg : string) : directive :=
  match arg with
  | String c r =>
      let close : ascii := if Ascii.eqb c dquote then dquote else ">"%char in
      if Ascii.eqb c dquote || Ascii.eqb c "<"%char then
        match break_at (Ascii.eqb close) r with
        | (p, String _ _) =>
            if is_empty p then DBad whole else DInclude p
        | (_, EmptyString) => DBad whole
        end
      else DBad whole
  | EmptyString => DBad whole
  end.

Definition parse_line (l : string) : directive :=
  let s := trim (strip_comment l) in
  match s with
  | EmptyString => DNone
  | String c r =>
      if Ascii.eqb c "#"%char then
        let '(kw, arg) := take_word r in
        let arg := ltrim arg in
        if String.eqb kw "ifdef" then parse_name DIfdef s arg
        else if String.eqb kw "ifndef" then parse_name DIfndef s arg
        else if String.eqb kw "endif" then DEndif
        else if String.eqb kw "define" then parse_define s arg
        else if String.eqb kw "undef" then parse_name DUndef s arg
        else if String.eqb kw "include" then parse_include s arg
        else if is_empty kw then DNone      (* the null directive *)
        else DBad s
      else DText s
  end.

Definition parse (text : string) : list directive :=
  map parse_line (lines_of text).

(** *** State, errors, files *)

(** A declaration of the translation unit, with the file it came from. *)
Record item : Type := Item { origin : string; decl : string }.

Record pstate : Type := PState {
  macros : gmap string string;   (* object-like macros: name to replacement *)
  opened : list string;          (* every file opened, in order *)
  output : list item             (* the translation unit produced so far *)
}.

Definition init_state : pstate :=
  {| macros := ∅; opened := []; output := [] |}.

Inductive error : Type :=
  | FileNotFound (path : string)           (* #include of an absent path *)
  | Malformed (path : string)              (* the header at [path] is rejected *)
  | IncludeDepth (path : string)           (* #include nested too deeply *)
  | StrayEndif (file : string)             (* #endif without #if *)
  | Unterminated (file : string)           (* conditional open at end of file *)
  | BadDirective (file : string) (l : string).

Inductive result (A : Type) : Type :=
  | Ok (a : A)
  | Err (e : error).
Arguments Ok {A} a.
Arguments Err {A} e.

Definition bind {A B : Type} (r : result A) (k : A -> result B) : result B :=
  match r with
  | Ok a => k a
  | Err e => Err e
  end.

Notation "'do' x <- r ; k" := (bind r (fun x => k))
  (at level 10, x name, r at level 100, k at level 200).

Definition is_ok {A : Type} (r : result A) : bool :=
  match r with Ok _ => true | Err _ => false end.

(** A header outside the fragment (the vendor's use [#if], [#pragma] and C++)
    is known by its effect only: from the macro table at the point of
    inclusion, either it is rejected, or it yields the declarations of its
    whole include tree and the macro table it leaves behind. *)
Definition header : Type :=
  gmap string string -> option (list string * gmap string string).

Inductive file : Type :=
  | Opaque (h : header)
  | Source (text : string).

(** What each include path resolves to under the build's search path. *)
Definition filesystem : Type := string -> option file.

(** *** Execution *)

Definition defined (x : string) (st : pstate) : bool :=
  match macros st !! x with Some _ => true | None => false end.

Definition define (x body : string) (st : pstate) : pstate :=
  {| macros := <[x := body]> (macros st);
     opened := opened st; output := output st |}.

Definition undef (x : string) (st : pstate) : pstate :=
  {| macros := delete x (macros st);
     opened := opened st; output := output st |}.

Definition emit (self t : string) (st : pstate) : pstate :=
  {| macros := macros st; opened := opened st;
     output := output st ++ [Item self t] |}.

Definition enter (path : string) (st : pstate) : pstate :=
  {| macros := macros st; opened := opened st ++ [path];
     output := output st |}.

(** The stack of open conditionals holds the truth of each test; a line is
    processed when every enclosing test holds. *)
Definition active (conds : list bool) : bool := forallb id conds.

(** One line of the file [self].  [inc] is what [#include] does. *)
Definition pp_step (inc : string -> pstate -> result pstate) (self : string)
    (d : directive) (conds : list bool) (st : pstate)
    : result (list bool * pstate) :=
  match d with
  | DNone => Ok (conds, st)
  | DIfdef x => Ok (defined x st :: conds, st)
  | DIfndef x => Ok (negb (defined x st) :: conds, st)
  | DEndif =>
      match conds with
      | [] => Err (StrayEndif self)
      | _ :: cs => Ok (cs, st)
      end
  | DDefine x body =>
      Ok (conds, if active conds then define x body st else st)
  | DUndef x =>
      Ok (conds, if active conds then undef x st else st)
  | DInclude p =>
      if active conds then (do st' <- inc p st; Ok (conds, st'))
      else Ok (conds, st)
  | DText t =>
      Ok (conds, if active conds then emit self t st else st)
  | DBad l =>
      if active conds then Err (BadDirective self l) else Ok (conds, st)
  end.

(** The lines of a file, in order.  Every error is final: the run stops at
    the first one, where a compiler goes on after an error that is not fatal
    and may report later ones as well. *)
Fixpoint pp_lines (inc : string -> pstate -> result pstate) (self : string)
    (ds : list directive) (conds : list bool) (st : pstate) : result pstate :=
  match ds with
  | [] =>
      match conds with
      | [] => Ok st
      | _ :: _ => Err (Unterminated self)
      end
  | d :: ds' =>
      do r <- pp_step inc self d conds st;
      pp_lines inc self ds' (fst r) (snd r)
  end.

(** Inclusion of [path] with [fuel] levels of nesting left.  A file is
    logged each time it is included, even when its guard makes it expand to
    nothing (a compiler that remembers guarded files does not open it
    again). *)
Fixpoint pp_file (fuel : nat) (fs : filesystem) (path : string)
    (st : pstate) : result pstate :=
  match fuel with
  | O => Err (IncludeDepth path)
  | S n =>
      match fs path with
      | None => Err (FileNotFound path)
      | Some (Opaque h) =>
          match h (macros st) with
          | None => Err (Malformed path)
          | Some (ds, m) =>
              Ok {| macros := m; opened := opened st ++ [path];
                    output := output st ++ map (Item path) ds |}
          end
      | Some (Source text) =>
          pp_lines (pp_file n fs) path (parse text) [] (enter path st)
      end
  end.

(** Nesting limit of the compilers the binding generator drives: a chain of
    that many files, the main file included. *)
Definition include_depth_limit : nat := 200.

(** A translation unit: the main file, from the initial state. *)
Definition preprocess (fs : filesystem) (main : string) : result pstate :=
  pp_file include_depth_limit fs main init_state.

End Cpp.

(** ** The wrapper *)

Module Wrapper.
Import Text Cpp.

(** The name the file is included by, and the names it mentions. *)
Definition path : string := "wrapper.h".
Definition guard : string := "WRAPPER_H".
Definition md_header : string :=
  "thostmduserapi_se.framework/Versions/A/Headers/ThostFtdcMdApi.h".
Definition trader_header : string :=
  "thosttraderapi_se.framework/Versions/A/Headers/ThostFtdcTraderApi.h".

(** The file, line by line, byte for byte (the comments are UTF-8). *)
Definition source_lines : list string :=
  [ "// CTP API C++ 头文件包装器";
    "// 用于 bindgen 生成 Rust FFI 绑定";
    "";
    "#ifndef WRAPPER_H";
    "#define WRAPPER_H";
    "";
    "// 行情 API";
    "#include " +:+ quoted md_header;
    "";
    "// 交易 API";
    "#include " +:+ quoted trader_header;
    "";
    "#endif // WRAPPER_H" ].

(** The file's text: its lines joined by line feeds, the last one
    unterminated. *)
Definition source : string := join_lines source_lines.

(** The file as the preprocessor reads it. *)
Definition program : list directive := parse source.

(** The last component of an include path. *)
Fixpoint basename_go (acc s : string) : string :=
  match s with
  | EmptyString => acc
  | String c s' =>
      if Ascii.eqb c "/"%char then basename_go EmptyString s'
      else basename_go (acc +:+ String c EmptyString) s'
  end.

Definition basename (s : string) : string := basename_go EmptyString s.

(** The paths a program includes and the macros it defines or removes, read
    off its directives. *)
Definition include_paths (ds : list directive) : list string :=
  omap (fun d => match d with DInclude p => Some p | _ => None end) ds.

Definition defined_names (ds : list directive) : list string :=
  omap (fun d => match d with DDefine x _ => Some x | _ => None end) ds.

Definition undefined_names (ds : list directive) : list string :=
  omap (fun d => match d with DUndef x => Some x | _ => None end) ds.

Definition text_lines (ds : list directive) : list string :=
  omap (fun d => match d with DText t => Some t | _ => None end) ds.

(** A file system that holds this file under its name. *)
Definition installed (fs : filesystem) : Prop := fs path = Some (Source source).

(** [#include "wrapper.h"] with [fuel] levels of nesting left for the
    headers it includes. *)
Definition include_wrapper (fuel : nat) (fs : filesystem) (st : pstate)
    : result pstate :=
  pp_lines (pp_file fuel fs) path program [] (enter path st).

(** What the two [#include] lines do, one after the other. *)
Definition include_vendor (fuel : nat) (fs : filesystem) (st : pstate)
    : result pstate :=
  do st1 <- pp_file fuel fs md_header st;
  pp_file fuel fs trader_header st1.

End Wrapper.

(** ** Vocabulary of the properties *)

Module Props.
Import Text Cpp Wrapper.

(** The state in which the guarded body starts: the file is logged and the
    guard macro is defined, with an empty replacement. *)
Definition body_entry (st : pstate) : pstate :=
  define guard EmptyString (enter path st).

(** The log and the output only grow. *)
Definition extends (st st' : pstate) : Prop :=
  opened st `prefix_of` opened st' ∧ output st `prefix_of` output st'.

(** No declaration of the translation unit comes from the wrapper itself. *)
Definition clean (st : pstate) : Prop :=
  Forall (fun it => origin it ≠ path) (output st).

Definition clean_rel (st st' : pstate) : Prop := clean st → clean st'.

(** [st] after [k] further inclusions that did nothing but open the wrapper
    (and log it, as [pp_file] does). *)
Definition reopened (k : nat) (st : pstate) : pstate :=
  {| macros := macros st; opened := opened st ++ replicate k path;
     output := output st |}.

(** Two file systems resolve every path of [l] alike. *)
Definition agree_on (fs fs' : filesystem) (l : list string) : Prop :=
  ∀ x, x ∈ l → fs' x = fs x.

(** A vendor header path that resolves to nothing, and one that resolves to
    a header whose inclusion at state [st] is rejected.  Rejection is any
    failure of the inclusion, with the nesting budget [n] it is given: at
    the budget of a main-file run this is a failure of the header itself. *)
Definition missing (fs : filesystem) (p : string) : Prop := fs p = None.

Definition present (fs : filesystem) (p : string) : Prop := is_Some (fs p).

Definition malformed (n : nat) (fs : filesystem) (p : string) (st : pstate)
    : Prop :=
  present fs p ∧ is_ok (pp_file n fs p st) = false.

(** The vendor headers do not remove the guard macro. *)
Definition keeps_guard (n : nat) (fs : filesystem) : Prop :=
  ∀ p s s', p = md_header ∨ p = trader_header →
    pp_file n fs p s = Ok s' → defined guard s = true → defined guard s' = true.

(** The vendor headers leave the macro [k] as it is. *)
Definition leaves (n : nat) (fs : filesystem) (k : string) : Prop :=
  ∀ p s s', p = md_header ∨ p = trader_header →
    pp_file n fs p s = Ok s' → macros s' !! k = macros s !! k.

(** The census claim in its original wording: twelve lines, each of them a
    directive or a comment. *)
Definition twelve_directive_or_comment_lines : Prop :=
  List.length (lines_of source) = 12
  ∧ Forall (fun l => classify l = Directive ∨ classify l = Comment)
      (lines_of source).

(** The files opened other than the wrapper itself. *)
Definition vendor_log (st : pstate) : list string :=
  filter (fun p => p ≠ path) (opened st).

(** The idempotence claim in its original wording: in a translation unit
    whose main file includes nothing but the wrapper, on a file system whose
    vendor headers leave the guard alone, each vendor header is pulled in at
    most once. *)
Definition vendor_headers_pulled_in_once : Prop :=
  ∀ fs main text st,
    installed fs → fs main = Some (Source text) →
    Forall (fun p => p = path) (include_paths (parse text)) →
    (∀ n, keeps_guard n fs) →
    preprocess fs main = Ok st →
    (List.length (filter (fun p => p = md_header) (opened st)) ≤ 1)%nat
    ∧ (List.length (filter (fun p => p = trader_header) (opened st)) ≤ 1)%nat.

(** *** Sample build configurations *)

(** Stand-ins for the vendor headers: each declares its API class and
    defines its own include guard. *)
Definition sample_md : header := fun m =>
  Some (["class CThostFtdcMdApi;"], <["THOST_FTDCMDAPI_H" := EmptyString]> m).

Definition sample_trader : header := fun m =>
  Some (["class CThostFtdcTraderApi;"],
        <["THOST_FTDCTRADERAPI_H" := EmptyString]> m).

(** A file system with the wrapper and the given vendor files. *)
Definition fs_with (md tr : option file) : filesystem := fun p =>
  if String.eqb p path then Some (Source source)
  else if String.eqb p md_header then md
  else if String.eqb p trader_header then tr
  else None.

Definition sample_fs : filesystem :=
  fs_with (Some (Opaque sample_md)) (Some (Opaque sample_trader)).

(** Both vendor paths resolve, to files with nothing in them. *)
Definition stub_fs : filesystem :=
  fs_with (Some (Source EmptyString)) (Some (Source EmptyString)).

(** The market-data header is present and rejected. *)
Definition broken_fs : filesystem :=
  fs_with (Some (Opaque (fun _ => None))) (Some (Opaque sample_trader)).

(** The trading header is absent. *)
Definition partial_fs : filesystem :=
  fs_with (Some (Opaque sample_md)) None.

(** The state after the market-data header, and after the whole wrapper, on
    [sample_fs]. *)
Definition sample_mid : pstate :=
  {| macros := <["THOST_FTDCMDAPI_H" := EmptyString]>
                 (<[guard := EmptyString]> ∅);
     opened := [path; md_header];
     output := [Item md_header "class CThostFtdcMdApi;"] |}.

(** The state after the wrapper has been preprocessed on [stub_fs]. *)
Definition stub_final : pstate :=
  {| macros := <[guard := EmptyString]> ∅;
     opened := [path; md_header; trader_header];
     output := [] |}.

(** A main file that includes the wrapper, removes its guard and includes it
    again. *)
Definition reinclude_main : string :=
  join_lines [ "#include " +:+ quoted path;
               "#undef WRAPPER_H";
               "#include " +:+ quoted path ].

Definition reinclude_fs : filesystem := fun p =>
  if String.eqb p "main.cpp" then Some (Source reinclude_main)
  else sample_fs p.

(** The state after [reinclude_main] has been preprocessed. *)
Definition reinclude_final : pstate :=
  {| macros := <["THOST_FTDCTRADERAPI_H" := EmptyString]>
                 (<["THOST_FTDCMDAPI_H" := EmptyString]>
                    (<[guard := EmptyString]> ∅));
     opened := ["main.cpp"; path; md_header; trader_header;
                path; md_header; trader_header];
     output := [Item md_header "class CThostFtdcMdApi;";
                Item trader_header "class CThostFtdcTraderApi;";
                Item md_header "class CThostFtdcMdApi;";
                Item trader_header "class CThostFtdcTraderApi;"] |}.

Definition sample_final : pstate :=
  {| macros := <["THOST_FTDCTRADERAPI_H" := EmptyString]>
                 (<["THOST_FTDCMDAPI_H" := EmptyString]>
                    (<[guard := EmptyString]> ∅));
     opened := [path; md_header; trader_header];
     output := [Item md_header "class CThostFtdcMdApi;";
                Item trader_header "class CThostFtdcTraderApi;"] |}.

(** The file an error holds responsible, for the errors that name the file
    in which the offending line stands or is missing. *)
Definition blamed (e : error) : option string :=
  match e with
  | StrayEndif f => Some f
  | Unterminated f => Some f
  | BadDirective f _ => Some f
  | FileNotFound f => Some f
  | Malformed f => Some f
  | IncludeDepth _ => None
  end.

(** A file system with the wrapper and nothing else. *)
Definition bare_fs : filesystem := fs_with None None.

(** A state in which the guard was defined on the command line, with a
    replacement. *)
Definition predefined_state : pstate :=
  {| macros := <[guard := "0"]> ∅; opened := []; output := [] |}.

(** A main file with a stray [#endif] after the inclusion of the wrapper. *)
Definition stray_main : string :=
  join_lines [ "#include " +:+ quoted path; "#endif" ].

Definition stray_fs : filesystem := fun p =>
  if String.eqb p "main.cpp" then Some (Source stray_main)
  else sample_fs p.

End Props.

(** ** Facts *)

Import Text Cpp Wrapper Props.
Close Scope string_scope.

(** *** The file as read *)

Lemma source_length : String.length source = 316.
Proof. vm_compute. reflexivity. Qed.

Lemma lines_of_source : lines_of source = source_lines.
Proof. vm_compute. reflexivity. Qed.

Lemma program_eq :
  program =
  [DNone; DNone; DNone; DIfndef guard; DDefine guard EmptyString; DNone;
   DNone; DInclude md_header; DNone; DNone; DInclude trader_header; DNone;
   DEndif].
Proof. vm_compute. reflexivity. Qed.

Lemma program_text_lines : text_lines program = [].
Proof. vm_compute. reflexivity. Qed.

(** *** State accessors *)

Lemma defined_enter x p st : defined x (enter p st) = defined x st.
Proof. reflexivity. Qed.

Lemma defined_define x b st : defined x (define x b st) = true.
Proof. unfold defined, define; simpl. by rewrite lookup_insert_eq. Qed.

Lemma defined_body_entry st : defined guard (body_entry st) = true.
Proof. apply defined_define. Qed.

Lemma defined_iter_enter x p k st :
  defined x (Nat.iter k (enter p) st) = defined x st.
Proof. induction k as [|k IH]; [done|]. simpl. by rewrite defined_enter. Qed.

(** *** The two runs of the wrapper *)

(** With the guard defined the whole body is skipped: nothing is looked up,
    so this holds on every file system. *)
Lemma include_wrapper_guarded n fs st :
  defined guard st = true → include_wrapper n fs st = Ok (enter path st).
Proof.
  intros Hg. unfold include_wrapper. rewrite program_eq.
  cbn [pp_lines pp_step bind fst snd].
  rewrite defined_enter, Hg. reflexivity.
Qed.

(** With the guard undefined the file is its two includes, run after the
    guard has been defined. *)
Lemma include_wrapper_fresh n fs st :
  defined guard st = false →
  include_wrapper n fs st = include_vendor n fs (body_entry st).
Proof.
  intros Hg. unfold include_wrapper, include_vendor, body_entry.
  rewrite program_eq. cbn [pp_lines pp_step bind fst snd].
  rewrite defined_enter, Hg. cbn [negb active forallb id andb bind fst snd].
  destruct (pp_file n fs md_header _) as [st1|e];
    cbn [bind fst snd pp_lines pp_step]; [|done].
  destruct (pp_file n fs trader_header st1) as [st2|e];
    cbn [bind fst snd pp_lines pp_step]; done.
Qed.

Lemma pp_file_installed n fs st :
  installed fs → pp_file (S n) fs path st = include_wrapper n fs st.
Proof. intros Hfs. simpl. by rewrite Hfs. Qed.

Lemma pp_file_opaque n fs p h st :
  fs p = Some (Opaque h) →
  pp_file (S n) fs p st
  = match h (macros st) with
    | None => Err (Malformed p)
    | Some (ds, m) =>
        Ok {| macros := m; opened := opened st ++ [p];
              output := output st ++ map (Item p) ds |}
    end.
Proof. intros H. simpl. by rewrite H. Qed.

Lemma include_vendor_ok n fs st st' :
  include_vendor n fs st = Ok st' ↔
  ∃ st1, pp_file n fs md_header st = Ok st1
         ∧ pp_file n fs trader_header st1 = Ok st'.
Proof.
  unfold include_vendor. split.
  - destruct (pp_file n fs md_header st) as [st1|e] eqn:E; simpl; [|done].
    intros H. by exists st1.
  - intros (st1 & -> & H). done.
Qed.

(** *** Invariants of the preprocessor *)

(** Running a file relates its entry and exit states by any preorder that
    every line respects. *)
Lemma pp_lines_rel (R : relation pstate) `{!PreOrder R}
    (inc : string → pstate → result pstate) (self : string)
    (ok : directive → Prop) :
  (∀ d c st c' st', ok d → pp_step inc self d c st = Ok (c', st') → R st st') →
  ∀ ds c st st',
    Forall ok ds → pp_lines inc self ds c st = Ok st' → R st st'.
Proof.
  intros Hstep ds. induction ds as [|d ds IH]; intros c st st' Hok Hrun.
  - destruct c; simplify_eq/=. reflexivity.
  - apply Forall_cons in Hok as [Hd Hds]. simpl in Hrun.
    destruct (pp_step inc self d c st) as [[c1 st1]|e] eqn:Hs; simplify_eq/=.
    transitivity st1; eauto.
Qed.

#[local] Instance extends_preorder : PreOrder extends.
Proof.
  split.
  - intros st. split; reflexivity.
  - intros a b c [? ?] [? ?]. split; etrans; eauto.
Qed.

Ltac step_cases H :=
  match type of H with
  | pp_step _ _ ?d ?c _ = Ok _ =>
      destruct d; simpl in H;
      repeat match type of H with
             | context [active c] => destruct (active c)
             | context [match c with _ => _ end] => destruct c
             | context [bind ?r _] =>
                 let E := fresh "Hinc" in destruct r eqn:E; simpl in H
             end;
      simplify_eq/=
  end.

Lemma pp_step_extends inc self d c st c' st' :
  (∀ p s s', inc p s = Ok s' → extends s s') →
  pp_step inc self d c st = Ok (c', st') → extends st st'.
Proof.
  intros Hinc H. step_cases H; eauto;
    split; simpl; try reflexivity; by apply prefix_app_r.
Qed.

Lemma enter_extends p st : extends st (enter p st).
Proof. split; simpl; [by apply prefix_app_r | reflexivity]. Qed.

Lemma pp_file_extends_entry n fs p st st' :
  pp_file n fs p st = Ok st' → extends (enter p st) st'.
Proof.
  revert p st st'. induction n as [|n IH]; intros p st st' H; [done|].
  simpl in H. destruct (fs p) as [[h|text]|]; [| |done].
  - destruct (h (macros st)) as [[ds m]|]; simplify_eq/=.
    split; simpl; [reflexivity | by apply prefix_app_r].
  - eapply (pp_lines_rel extends _ _ (λ _, True)); [| |exact H].
    + intros d c s c' s' _ Hs. eapply pp_step_extends; [|exact Hs].
      intros q a b Hq. etrans; [apply enter_extends | eapply IH, Hq].
    + by apply Forall_true.
Qed.

(** An inclusion logs its file first, and appends to the log and to the
    output. *)
Lemma pp_file_grows n fs p st st' :
  pp_file n fs p st = Ok st' →
  ∃ l o, opened st' = opened st ++ p :: l ∧ output st' = output st ++ o.
Proof.
  intros H. apply pp_file_extends_entry in H as [[l Hl] [o Ho]].
  simpl in Hl, Ho. exists l, o. split; [|done].
  by rewrite Hl, <- app_assoc.
Qed.

(** Only program text of a file named [path] could put a declaration of that
    origin in the output. *)
#[local] Instance clean_rel_preorder : PreOrder clean_rel.
Proof. split; unfold clean_rel; [intros ?|intros ? ? ?]; tauto. Qed.

Lemma pp_step_clean inc self d c st c' st' :
  (self ≠ path ∨ ∀ t, d ≠ DText t) →
  (∀ p s s', inc p s = Ok s' → clean_rel s s') →
  pp_step inc self d c st = Ok (c', st') → clean_rel st st'.
Proof.
  intros Hd Hinc H. step_cases H; eauto; try (by intros ?).
  intros Hc. unfold clean in *. simpl. apply Forall_app. split; [done|].
  apply Forall_singleton. simpl. destruct Hd as [?|Hd]; [done|].
  by destruct (Hd t).
Qed.

Lemma text_lines_nil ds :
  text_lines ds = [] → Forall (λ d, ∀ t, d ≠ DText t) ds.
Proof.
  induction ds as [|d ds IH]; [constructor|].
  unfold text_lines. simpl. destruct d; simpl; try done;
    intros H; constructor; try done; by apply IH.
Qed.

Lemma pp_file_clean n fs p st st' :
  installed fs → pp_file n fs p st = Ok st' → clean st → clean st'.
Proof.
  intros Hfs. revert p st st'.
  induction n as [|n IH]; intros p st st' H; [done|].
  simpl in H. destruct (fs p) as [[h|text]|] eqn:Hp; [| |done].
  - destruct (h (macros st)) as [[ds m]|]; simplify_eq/=.
    intros Hc. unfold clean in *. simpl. apply Forall_app. split; [done|].
    apply Forall_fmap, Forall_true. simpl. intros _ ->.
    unfold installed in Hfs. congruence.
  - assert (Hok : Forall (λ d, p ≠ path ∨ ∀ t, d ≠ DText t) (parse text)).
    { destruct (decide (p = path)) as [->|Hne].
      - unfold installed in Hfs. rewrite Hfs in Hp. simplify_eq.
        eapply Forall_impl; [apply text_lines_nil, program_text_lines|].
        simpl; auto.
      - apply Forall_true. auto. }
    assert (Hstep : ∀ d c s c' s',
              (p ≠ path ∨ ∀ t, d ≠ DText t) →
              pp_step (pp_file n fs) p d c s = Ok (c', s') → clean_rel s s').
    { intros d c s c' s' Hd Hs. eapply pp_step_clean; [exact Hd| |exact Hs].
      intros q a b Hq. unfold clean_rel. eauto. }
    exact (pp_lines_rel clean_rel _ _ _ Hstep _ _ _ _ Hok H).
Qed.

Lemma pp_lines_extends inc self ds c st st' :
  (∀ p s s', inc p s = Ok s' → extends s s') →
  pp_lines inc self ds c st = Ok st' → extends st st'.
Proof.
  intros Hinc H.
  eapply (pp_lines_rel extends _ _ (λ _, True)); [| |exact H].
  - intros d c0 s c' s' _ Hs. by eapply pp_step_extends.
  - by apply Forall_true.
Qed.

Lemma pp_file_extends n fs p st st' :
  pp_file n fs p st = Ok st' → extends st st'.
Proof.
  intros H. etrans; [apply (enter_extends p)|].
  by eapply pp_file_extends_entry.
Qed.

(** *** What an inclusion depends on *)

Section Agreement.
Variables fs fs' : filesystem.

(** [inc'] does what [inc] does wherever the files opened are files the
    two file systems agree on. *)
Let follows (inc inc' : string → pstate → result pstate) : Prop :=
  ∀ p s s' l, inc p s = Ok s' → opened s' = opened s ++ l →
    agree_on fs fs' l → inc' p s = Ok s'.

Lemma pp_lines_agree inc inc' self ds :
  (∀ p s s', inc p s = Ok s' → extends s s') →
  follows inc inc' →
  ∀ c st st' l,
    pp_lines inc self ds c st = Ok st' → opened st' = opened st ++ l →
    agree_on fs fs' l → pp_lines inc' self ds c st = Ok st'.
Proof.
  intros Hext Hinc. induction ds as [|d ds IH]; intros c st st' l H Hl Hag.
  - done.
  - simpl in H. simpl.
    destruct (pp_step inc self d c st) as [[c1 st1]|e] eqn:Hs;
      simplify_eq/=.
    destruct (pp_step_extends _ _ _ _ _ _ _ Hext Hs) as [[la Hla] _].
    destruct (pp_lines_extends _ _ _ _ _ _ Hext H) as [[lb Hlb] _].
    assert (l = la ++ lb) as ->.
    { rewrite Hlb, Hla, <- app_assoc in Hl. by apply app_inv_head in Hl. }
    assert (Hs' : pp_step inc' self d c st = Ok (c1, st1)).
    { destruct d as [| | | | | |q| |]; try exact Hs. simpl in Hs |- *.
      destruct (active c); [|done].
      destruct (inc q st) as [s2|e] eqn:E; simplify_eq/=.
      erewrite Hinc; [done | exact E | exact Hla |].
      intros x Hx. apply Hag, elem_of_app. by left. }
    rewrite Hs'. simpl. eapply IH; [exact H | exact Hlb |].
    intros x Hx. apply Hag, elem_of_app. by right.
Qed.

(** The result of an inclusion depends on the file system only through
    the files it opens. *)
Lemma pp_file_agree n p st st' l :
  pp_file n fs p st = Ok st' → opened st' = opened st ++ l →
  agree_on fs fs' l → pp_file n fs' p st = Ok st'.
Proof.
  revert p st st' l. induction n as [|n IH]; intros p st st' l H Hl Hag;
    [done|].
  destruct (pp_file_grows _ _ _ _ _ H) as (l' & o & Hl' & _).
  assert (l = p :: l') as ->.
  { rewrite Hl' in Hl. by apply app_inv_head in Hl. }
  simpl in H |- *. rewrite (Hag p) by (by left).
  destruct (fs p) as [[h|text]|]; [done| |done].
  eapply (pp_lines_agree (pp_file n fs)); [| |exact H| |].
  - intros q s s'. apply pp_file_extends.
  - intros q s s' l0. apply IH.
  - simpl. rewrite Hl'. by rewrite <- app_assoc.
  - intros x Hx. apply Hag. by right.
Qed.
End Agreement.

(** *** Shape of a successful first inclusion *)

Lemma include_wrapper_shape n fs st st' :
  defined guard st = false →
  include_wrapper n fs st = Ok st' →
  ∃ st1 l1 l2 o1 o2,
    pp_file n fs md_header (body_entry st) = Ok st1
    ∧ pp_file n fs trader_header st1 = Ok st'
    ∧ opened st1 = opened st ++ path :: md_header :: l1
    ∧ opened st' = opened st ++ path :: (md_header :: l1) ++ trader_header :: l2
    ∧ output st1 = output st ++ o1
    ∧ output st' = output st ++ o1 ++ o2.
Proof.
  intros Hg H. rewrite include_wrapper_fresh in H by done.
  apply include_vendor_ok in H as (st1 & H1 & H2).
  destruct (pp_file_grows _ _ _ _ _ H1) as (l1 & o1 & Hl1 & Ho1).
  destruct (pp_file_grows _ _ _ _ _ H2) as (l2 & o2 & Hl2 & Ho2).
  simpl in Hl1, Ho1. exists st1, l1, l2, o1, o2.
  repeat split; try done.
  - by rewrite Hl1, <- app_assoc.
  - rewrite Hl2, Hl1. rewrite <- !app_assoc. done.
  - rewrite Ho2, Ho1. by rewrite <- app_assoc.
Qed.

(** *** Repeated inclusion *)

Lemma reopened_enter k st : reopened k (enter path st) = reopened (S k) st.
Proof. unfold reopened, enter. simpl. by rewrite <- app_assoc. Qed.

Lemma reopened_0 st : reopened 0 st = st.
Proof. destruct st. unfold reopened. simpl. by rewrite app_nil_r. Qed.

(** Once the guard is defined, any number of further inclusions of the
    wrapper only log the file. *)
Lemma repeated_inclusion_guarded n fs self k st :
  installed fs → defined guard st = true →
  pp_lines (pp_file (S n) fs) self (replicate k (DInclude path)) [] st
  = Ok (reopened k st).
Proof.
  intros Hfs. revert st. induction k as [|k IH]; intros st Hg.
  - simpl. by rewrite reopened_0.
  - cbn [replicate pp_lines pp_step active forallb].
    rewrite pp_file_installed, include_wrapper_guarded by done.
    cbn [bind fst snd]. rewrite IH by done. by rewrite reopened_enter.
Qed.

(** *** The sample configurations, run *)

Example sample_run : preprocess sample_fs path = Ok sample_final.
Proof. vm_compute. reflexivity. Qed.

Example stub_run : preprocess stub_fs path = Ok stub_final.
Proof. vm_compute. reflexivity. Qed.

Example broken_run : preprocess broken_fs path = Err (Malformed md_header).
Proof. vm_compute. reflexivity. Qed.

Example partial_run :
  preprocess partial_fs path = Err (FileNotFound trader_header).
Proof. vm_compute. reflexivity. Qed.

(** Why the vendor headers, and the text between two inclusions, must leave
    the guard alone: after [#undef WRAPPER_H] the second inclusion expands
    again. *)
Example reinclude_run :
  output <$> (match preprocess reinclude_fs "main.cpp" with
              | Ok st => Some st
              | Err _ => None
              end)
  = Some (output sample_final ++ output sample_final).
Proof. vm_compute. reflexivity. Qed.

Lemma sample_keeps_guard : keeps_guard 1 sample_fs.
Proof.
  intros p s s' [-> | ->] H Hg.
  - rewrite (pp_file_opaque 0 sample_fs md_header sample_md) in H
      by reflexivity.
    unfold sample_md in H. simplify_eq. unfold defined in *. cbn [macros].
    by rewrite lookup_insert_ne.
  - rewrite (pp_file_opaque 0 sample_fs trader_header sample_trader) in H
      by reflexivity.
    unfold sample_trader in H. simplify_eq. unfold defined in *. cbn [macros].
    by rewrite lookup_insert_ne.
Qed.

(** ** The claims *)

(** C1. Preprocessing wrapper.h, entered with its guard undefined, is the
    inclusion of exactly two headers, [ThostFtdcMdApi.h] and
    [ThostFtdcTraderApi.h], one after the other in the one translation unit:
    the file names two include paths; its run equals the run of those two
    inclusions; and when it succeeds the files opened are the wrapper, then
    the market-data tree, then the trading tree, and the output gained is
    the declarations of the first tree followed by those of the second. *)
Theorem wrapper_is_two_vendor_inclusions n fs st :
  defined guard st = false →
  include_paths program = [md_header; trader_header]
  ∧ basename <$> include_paths program
    = ["ThostFtdcMdApi.h"; "ThostFtdcTraderApi.h"]
  ∧ include_wrapper n fs st = include_vendor n fs (body_entry st)
  ∧ ∀ st', include_wrapper n fs st = Ok st' →
      ∃ st1 l1 l2 o1 o2,
        pp_file n fs md_header (body_entry st) = Ok st1
        ∧ pp_file n fs trader_header st1 = Ok st'
        ∧ opened st'
          = opened st ++ path :: (md_header :: l1) ++ trader_header :: l2
        ∧ output st1 = output st ++ o1
        ∧ output st' = output st ++ o1 ++ o2.
Proof.
  intros Hg. split; [by vm_compute|]. split; [by vm_compute|].
  split; [by apply include_wrapper_fresh|].
  intros st' H.
  destruct (include_wrapper_shape _ _ _ _ Hg H)
    as (st1 & l1 & l2 & o1 & o2 & ? & ? & ? & ? & ? & ?).
  by exists st1, l1, l2, o1, o2.
Qed.

Lemma wrapper_is_two_vendor_inclusions_witness :
  defined guard init_state = false
  ∧ include_wrapper 1 sample_fs init_state
    = include_vendor 1 sample_fs (body_entry init_state).
Proof.
  assert (H : defined guard init_state = false) by reflexivity.
  split; [exact H|].
  exact (proj1 (proj2 (proj2
    (wrapper_is_two_vendor_inclusions 1 sample_fs init_state H)))).
Defined.

(** C2. Entered with its guard undefined, wrapper.h fails if and only if a
    vendor header is missing or malformed: the market-data header is missing,
    or is rejected where it is included, or the trading header is missing, or
    is rejected where it is included (after the market-data header).  The
    error reported is then the one of the failing inclusion, and when both
    inclusions succeed the wrapper succeeds with their result: it has no
    failure of its own. *)
Theorem wrapper_fails_iff_vendor_fails n fs st :
  defined guard st = false →
  (is_ok (include_wrapper n fs st) = false ↔
     missing fs md_header
     ∨ malformed n fs md_header (body_entry st)
     ∨ missing fs trader_header
     ∨ ∃ st1, pp_file n fs md_header (body_entry st) = Ok st1
              ∧ malformed n fs trader_header st1)
  ∧ (∀ e, include_wrapper n fs st = Err e →
       pp_file n fs md_header (body_entry st) = Err e
       ∨ ∃ st1, pp_file n fs md_header (body_entry st) = Ok st1
                ∧ pp_file n fs trader_header st1 = Err e)
  ∧ (∀ st1 st2,
       pp_file n fs md_header (body_entry st) = Ok st1 →
       pp_file n fs trader_header st1 = Ok st2 →
       include_wrapper n fs st = Ok st2).
Proof.
  intros Hg. rewrite include_wrapper_fresh by done.
  unfold include_vendor, missing, malformed, present.
  assert (Hnone : ∀ p s, fs p = None → is_ok (pp_file n fs p s) = false).
  { intros p s Hp. destruct n; simpl; [done|]. by rewrite Hp. }
  split; [|split].
  - split.
    + destruct (pp_file n fs md_header (body_entry st)) as [st1|e] eqn:E1.
      * simpl. intros H2. destruct (fs trader_header) eqn:Ht; [|tauto].
        do 3 right. exists st1. eauto.
      * intros _. destruct (fs md_header) eqn:Hm; [|tauto].
        right; left. eauto.
    + intros [Hm|[[_ Hm]|[Ht|(st1 & E1 & _ & Ht)]]].
      * specialize (Hnone _ (body_entry st) Hm).
        by destruct (pp_file n fs md_header (body_entry st)).
      * by destruct (pp_file n fs md_header (body_entry st)).
      * destruct (pp_file n fs md_header (body_entry st)) as [st1|e]; [|done].
        simpl. by apply Hnone.
      * by rewrite E1.
  - intros e. destruct (pp_file n fs md_header (body_entry st)) as [st1|e1];
      simpl; intros H; [right; by exists st1 | left; done].
  - intros st1 st2 -> H2. done.
Qed.

Lemma wrapper_fails_iff_vendor_fails_witness :
  defined guard init_state = false
  ∧ include_wrapper 1 sample_fs init_state = Ok sample_final
  ∧ is_ok (include_wrapper 1 partial_fs init_state) = false.
Proof.
  assert (H : defined guard init_state = false) by reflexivity.
  split; [exact H|]. split.
  - refine (proj2 (proj2
      (wrapper_fails_iff_vendor_fails 1 sample_fs init_state H))
        sample_mid sample_final _ _); vm_compute; reflexivity.
  - apply (proj1 (wrapper_fails_iff_vendor_fails 1 partial_fs init_state H)).
    right; right; left. reflexivity.
Defined.

(** C3, as worded, fails on the file: it has thirteen physical lines, and
    four of them, the third for one, are blank, which is neither a directive
    nor a comment. *)
Lemma wrapper_line_count_counterexample :
  List.length (lines_of source) ≠ 12
  ∧ lines_of source !! 2 = Some EmptyString
  ∧ classify EmptyString = Blank
  ∧ ¬ Forall (fun l => classify l = Directive ∨ classify l = Comment)
        (lines_of source)
  ∧ ¬ twelve_directive_or_comment_lines.
Proof.
  assert (H2 : lines_of source !! 2 = Some EmptyString) by (by vm_compute).
  assert (HF : ¬ Forall (fun l => classify l = Directive
                                  ∨ classify l = Comment) (lines_of source)).
  { intros HF. destruct (proj1 (Forall_lookup _ _) HF _ _ H2); discriminate. }
  split; [by vm_compute|]. split; [done|]. split; [done|]. split; [done|].
  intros [_ HF']. by apply HF.
Qed.

(** C3, amended. The file is 316 bytes in thirteen physical lines, twelve of
    them terminated by a line feed and the last one not; five lines are
    preprocessor directives, four are comments and four are blank; no line is
    code. *)
Theorem wrapper_line_census :
  String.length source = 316
  ∧ List.length (lines_of source) = 13
  ∧ newline_count source = 12
  ∧ count_kind Directive (lines_of source) = 5
  ∧ count_kind Comment (lines_of source) = 4
  ∧ count_kind Blank (lines_of source) = 4
  ∧ count_kind Code (lines_of source) = 0
  ∧ Forall (fun l => classify l = Directive ∨ classify l = Comment
                     ∨ classify l = Blank) (lines_of source).
Proof.
  repeat (split; [by vm_compute|]).
  apply Forall_forall. intros l Hl.
  assert (Hk : classify l ≠ Code).
  { assert (Hc : count_kind Code (lines_of source) = 0) by (by vm_compute).
    unfold count_kind in Hc. apply length_zero_iff_nil in Hc.
    intros Hcode. apply (not_elem_of_nil l). rewrite <- Hc.
    apply list_elem_of_filter. by split. }
  destruct (classify l); auto. done.
Qed.

(** C4. The wrapper has no declaration, definition or statement of its own:
    none of its lines is program text, and in every translation unit built on
    a file system that holds it, whatever the main file and however the
    wrapper is reached, no declaration of the output originates in
    wrapper.h. *)
Theorem wrapper_contributes_no_declaration fs main st :
  installed fs →
  preprocess fs main = Ok st →
  text_lines program = []
  ∧ count_kind Code (lines_of source) = 0
  ∧ Forall (fun it => origin it ≠ path) (output st).
Proof.
  intros Hfs H. split; [by vm_compute|]. split; [by vm_compute|].
  eapply (pp_file_clean _ _ _ _ _ Hfs H). constructor.
Qed.

Lemma wrapper_contributes_no_declaration_witness :
  installed sample_fs
  ∧ preprocess sample_fs path = Ok sample_final
  ∧ Forall (fun it => origin it ≠ path) (output sample_final).
Proof.
  assert (H1 : installed sample_fs) by reflexivity.
  assert (H2 : preprocess sample_fs path = Ok sample_final)
    by (vm_compute; reflexivity).
  split; [exact H1|]. split; [exact H2|].
  exact (proj2 (proj2
    (wrapper_contributes_no_declaration sample_fs path sample_final H1 H2))).
Defined.

Lemma vendor_log_enter st : vendor_log (enter path st) = vendor_log st.
Proof.
  unfold vendor_log, enter. cbn [opened]. rewrite filter_app.
  rewrite filter_cons_False by (intros H; by apply H).
  by rewrite filter_nil, app_nil_r.
Qed.

Lemma vendor_log_reopened k st : vendor_log (reopened k st) = vendor_log st.
Proof.
  revert st. induction k as [|k IH]; intros st; [by rewrite reopened_0|].
  by rewrite <- reopened_enter, IH, vendor_log_enter.
Qed.

Lemma reinclude_keeps_guard n : keeps_guard n reinclude_fs.
Proof.
  intros p s s' Hp H Hg. destruct n as [|n]; [done|].
  destruct Hp as [-> | ->].
  - rewrite (pp_file_opaque n reinclude_fs md_header sample_md) in H
      by reflexivity.
    unfold sample_md in H. simplify_eq. unfold defined in *. cbn [macros].
    by rewrite lookup_insert_ne.
  - rewrite (pp_file_opaque n reinclude_fs trader_header sample_trader) in H
      by reflexivity.
    unfold sample_trader in H. simplify_eq. unfold defined in *. cbn [macros].
    by rewrite lookup_insert_ne.
Qed.

(** C6, as worded, fails: the guard holds only while [WRAPPER_H] stays
    defined.  The main file of [reinclude_fs] includes the wrapper, removes
    the guard with [#undef WRAPPER_H] and includes the wrapper again; its
    vendor headers leave the guard alone, and yet each of them is opened
    twice and declares its class twice. *)
Lemma vendor_headers_pulled_in_twice_counterexample :
  installed reinclude_fs
  ∧ reinclude_fs "main.cpp" = Some (Source reinclude_main)
  ∧ parse reinclude_main = [DInclude path; DUndef guard; DInclude path]
  ∧ preprocess reinclude_fs "main.cpp" = Ok reinclude_final
  ∧ List.length (filter (fun p => p = md_header) (opened reinclude_final)) = 2
  ∧ ¬ vendor_headers_pulled_in_once.
Proof.
  assert (H0 : installed reinclude_fs) by reflexivity.
  assert (H1 : reinclude_fs "main.cpp" = Some (Source reinclude_main))
    by reflexivity.
  assert (H2 : parse reinclude_main
               = [DInclude path; DUndef guard; DInclude path])
    by (vm_compute; reflexivity).
  assert (H3 : preprocess reinclude_fs "main.cpp" = Ok reinclude_final)
    by (vm_compute; reflexivity).
  assert (H4 : List.length (filter (fun p => p = md_header)
                              (opened reinclude_final)) = 2)
    by (vm_compute; reflexivity).
  do 5 (split; [assumption|]).
  intros Hclaim.
  destruct (Hclaim reinclude_fs "main.cpp" reinclude_main reinclude_final
              H0 H1) as [Hmd _].
  - rewrite H2. cbn. by repeat constructor.
  - exact reinclude_keeps_guard.
  - exact H3.
  - rewrite H4 in Hmd. lia.
Qed.

(** C6, amended. Inclusion of wrapper.h is idempotent for as long as
    [WRAPPER_H] stays defined.  When the vendor headers leave the guard
    alone, the first inclusion, made with the guard undefined, is the two
    vendor inclusions run with [WRAPPER_H] defined, and leaves it defined;
    an inclusion at any later point where the guard is defined succeeds,
    changes neither the macros nor the output and opens no file but the
    wrapper; and a file of [k + 1] consecutive inclusions ends with the
    macros, the output and the vendor files of the first one. *)
Theorem wrapper_inclusion_idempotent n fs self k st st1 :
  installed fs →
  keeps_guard n fs →
  defined guard st = false →
  pp_file (S n) fs path st = Ok st1 →
  include_vendor n fs (body_entry st) = Ok st1
  ∧ defined guard st1 = true
  ∧ (∀ s, defined guard s = true →
       ∃ s', pp_file (S n) fs path s = Ok s'
             ∧ macros s' = macros s
             ∧ output s' = output s
             ∧ vendor_log s' = vendor_log s)
  ∧ ∃ stk,
      pp_lines (pp_file (S n) fs) self (replicate (S k) (DInclude path)) [] st
      = Ok stk
      ∧ macros stk = macros st1
      ∧ output stk = output st1
      ∧ vendor_log stk = vendor_log st1.
Proof.
  intros Hfs Hkeep Hg H1.
  assert (Hv : include_vendor n fs (body_entry st) = Ok st1).
  { by rewrite <- include_wrapper_fresh, <- pp_file_installed. }
  assert (Hg1 : defined guard st1 = true).
  { apply include_vendor_ok in Hv as (s & Hmd & Htr).
    eapply Hkeep; [by right | exact Htr |].
    eapply Hkeep; [by left | exact Hmd |]. apply defined_body_entry. }
  split; [done|]. split; [done|]. split.
  - intros s Hs. exists (enter path s).
    rewrite pp_file_installed, include_wrapper_guarded by done.
    by rewrite vendor_log_enter.
  - exists (reopened k st1). split.
    + cbn [replicate pp_lines pp_step active forallb]. rewrite H1.
      cbn [bind fst snd]. by apply repeated_inclusion_guarded.
    + by rewrite vendor_log_reopened.
Qed.

Lemma wrapper_inclusion_idempotent_witness :
  installed sample_fs
  ∧ keeps_guard 1 sample_fs
  ∧ defined guard init_state = false
  ∧ pp_file 2 sample_fs path init_state = Ok sample_final
  ∧ include_vendor 1 sample_fs (body_entry init_state) = Ok sample_final
  ∧ defined guard sample_final = true.
Proof.
  assert (H0 : installed sample_fs) by reflexivity.
  assert (H1 : defined guard init_state = false) by reflexivity.
  assert (H2 : pp_file 2 sample_fs path init_state = Ok sample_final)
    by (vm_compute; reflexivity).
  split; [exact H0|]. split; [exact sample_keeps_guard|].
  split; [exact H1|]. split; [exact H2|].
  destruct (wrapper_inclusion_idempotent 1 sample_fs "main.cpp" 2 init_state
              sample_final H0 sample_keeps_guard H1 H2) as (Ha & Hb & _).
  exact (conj Ha Hb).
Defined.

(** C7. The market-data header is included strictly before the trading
    header: its directive stands on line 8 and the other on line 11, and in a
    successful run from an undefined guard the output gained is the
    market-data tree's declarations [o1] followed by the trading tree's [o2],
    every one of [o1] at a smaller position than every one of [o2].  The
    trading tree is expanded in the state the market-data tree left, so it
    sees what that tree declared and defined; the market-data tree is
    expanded before the trading header is opened, and unless it opens that
    header itself its expansion is the same whatever the trading header
    is. *)
Theorem market_data_precedes_trading n fs st st' :
  defined guard st = false →
  include_wrapper n fs st = Ok st' →
  program !! 7 = Some (DInclude md_header)
  ∧ program !! 10 = Some (DInclude trader_header)
  ∧ ∃ st1 l1 l2 o1 o2,
      pp_file n fs md_header (body_entry st) = Ok st1
      ∧ pp_file n fs trader_header st1 = Ok st'
      ∧ opened st1 = opened st ++ path :: md_header :: l1
      ∧ opened st'
        = opened st ++ path :: (md_header :: l1) ++ trader_header :: l2
      ∧ output st1 = output st ++ o1
      ∧ output st' = output st ++ o1 ++ o2
      ∧ (∀ i j a b, o1 !! i = Some a → o2 !! j = Some b →
           output st' !! (List.length (output st) + i) = Some a
           ∧ output st'
               !! (List.length (output st) + List.length o1 + j) = Some b
           ∧ List.length (output st) + i
             < List.length (output st) + List.length o1 + j)
      ∧ (∀ fs', trader_header ∉ l1 →
           (∀ p, p ≠ trader_header → fs' p = fs p) →
           pp_file n fs' md_header (body_entry st) = Ok st1).
Proof.
  intros Hg H. split; [by vm_compute|]. split; [by vm_compute|].
  destruct (include_wrapper_shape _ _ _ _ Hg H)
    as (st1 & l1 & l2 & o1 & o2 & H1 & H2 & Hl1 & Hl' & Ho1 & Ho').
  exists st1, l1, l2, o1, o2. repeat (split; [done|]). split.
  - intros i j a b Hi Hj. rewrite Ho'.
    pose proof (lookup_lt_Some _ _ _ Hi) as Hlt. repeat split.
    + rewrite lookup_app_r by lia.
      replace (_ + i - _) with i by lia. by rewrite lookup_app_l.
    + rewrite lookup_app_r by lia. rewrite lookup_app_r by lia.
      replace (_ + _ + j - _ - _) with j by lia. done.
    + lia.
  - intros fs' Hnot Hfs'.
    eapply (pp_file_agree fs fs' _ _ _ _ (md_header :: l1)); [exact H1 | |].
    + rewrite Hl1. unfold body_entry. simpl. by rewrite <- app_assoc.
    + intros x Hx. apply Hfs'. intros ->.
      apply elem_of_cons in Hx as [Hx|Hx]; [done|]. by apply Hnot.
Qed.

Lemma market_data_precedes_trading_witness :
  defined guard init_state = false
  ∧ include_wrapper 1 sample_fs init_state = Ok sample_final
  ∧ program !! 7 = Some (DInclude md_header)
  ∧ program !! 10 = Some (DInclude trader_header).
Proof.
  assert (H1 : defined guard init_state = false) by reflexivity.
  assert (H2 : include_wrapper 1 sample_fs init_state = Ok sample_final)
    by (vm_compute; reflexivity).
  destruct (market_data_precedes_trading 1 sample_fs init_state sample_final
              H1 H2) as (Ha & Hb & _).
  exact (conj H1 (conj H2 (conj Ha Hb))).
Defined.

(** C8. The wrapper's own directives define one name, [WRAPPER_H], and
    remove none; it has no program text.  Across an inclusion, at any point
    of any translation unit, what the unit had produced is still there, every
    macro other than the guard that the vendor headers leave alone has the
    replacement (or the absence) it had, and the guard itself, if the vendor
    headers leave it alone, keeps its replacement when it was defined and is
    defined with an empty one when it was not. *)
Theorem wrapper_defines_only_its_guard n fs st st' :
  include_wrapper n fs st = Ok st' →
  defined_names program = [guard]
  ∧ undefined_names program = []
  ∧ text_lines program = []
  ∧ output st `prefix_of` output st'
  ∧ (∀ k, k ≠ guard → leaves n fs k → macros st' !! k = macros st !! k)
  ∧ (leaves n fs guard →
       macros st' !! guard = Some (default EmptyString (macros st !! guard))).
Proof.
  intros H. do 3 (split; [by vm_compute|]).
  destruct (defined guard st) eqn:Hg.
  - rewrite include_wrapper_guarded in H by done. simplify_eq.
    split; [done|]. split; [done|]. intros _. simpl.
    unfold defined in Hg. by destruct (macros st !! guard).
  - destruct (include_wrapper_shape _ _ _ _ Hg H)
      as (st1 & l1 & l2 & o1 & o2 & H1 & H2 & _ & _ & _ & Ho').
    split; [rewrite Ho'; by apply prefix_app_r|].
    split.
    + intros k Hk Hleave.
      rewrite (Hleave _ _ _ (or_intror eq_refl) H2).
      rewrite (Hleave _ _ _ (or_introl eq_refl) H1).
      unfold body_entry, define. cbn [macros enter].
      by rewrite lookup_insert_ne.
    + intros Hleave.
      rewrite (Hleave _ _ _ (or_intror eq_refl) H2).
      rewrite (Hleave _ _ _ (or_introl eq_refl) H1).
      unfold body_entry, define. cbn [macros enter].
      rewrite lookup_insert_eq. unfold defined in Hg.
      by destruct (macros st !! guard).
Qed.

Lemma wrapper_defines_only_its_guard_witness :
  include_wrapper 1 sample_fs init_state = Ok sample_final
  ∧ defined_names program = [guard]
  ∧ output init_state `prefix_of` output sample_final.
Proof.
  assert (H : include_wrapper 1 sample_fs init_state = Ok sample_final)
    by (vm_compute; reflexivity).
  destruct (wrapper_defines_only_its_guard 1 sample_fs init_state
              sample_final H) as (Ha & _ & _ & Hb & _).
  exact (conj H (conj Ha Hb)).
Defined.

(** ** Further properties of the wrapper *)

(** Errors of a file's own lines name that file; the others come from the
    inclusions it makes. *)
Lemma pp_lines_err (P : error → Prop) inc self ds c st e :
  (∀ p s e', inc p s = Err e' → P e') →
  P (StrayEndif self) → P (Unterminated self) →
  (∀ l, P (BadDirective self l)) →
  pp_lines inc self ds c st = Err e → P e.
Proof.
  intros Hinc Hstray Hunt Hbad. revert c st.
  induction ds as [|d ds IH]; intros c st H.
  - destruct c; simplify_eq/=. done.
  - simpl in H.
    destruct (pp_step inc self d c st) as [[c1 st1]|e1] eqn:Hs; simpl in H.
    + by eapply IH.
    + simplify_eq. destruct d; simpl in Hs;
        repeat match type of Hs with
               | context [active c] => destruct (active c)
               | context [match c with _ => _ end] => destruct c
               | context [bind ?r _] =>
                   let E := fresh "E" in destruct r eqn:E; simpl in Hs
               end; simplify_eq/=; eauto.
Qed.

Lemma include_wrapper_err n fs st e :
  include_wrapper n fs st = Err e →
  ∃ p s, pp_file n fs p s = Err e.
Proof.
  destruct (defined guard st) eqn:Hg.
  - by rewrite include_wrapper_guarded.
  - rewrite include_wrapper_fresh by done. unfold include_vendor.
    destruct (pp_file n fs md_header (body_entry st)) as [st1|e1] eqn:E1;
      simpl; intros H; simplify_eq; eauto.
Qed.

Lemma pp_file_never_blames n fs p st e :
  installed fs → pp_file n fs p st = Err e → blamed e ≠ Some path.
Proof.
  intros Hfs. revert p st e.
  induction n as [|n IH]; intros p st e H; [by simplify_eq/=|].
  destruct (decide (p = path)) as [->|Hne].
  - rewrite pp_file_installed in H by done.
    apply include_wrapper_err in H as (q & s & H). by eapply IH.
  - simpl in H. destruct (fs p) as [[h|text]|]; simplify_eq/=.
    + destruct (h (macros st)) as [[ds m]|]; simplify_eq/=. congruence.
    + eapply (pp_lines_err (λ e, blamed e ≠ Some path)); [| | | |exact H];
        simpl; try congruence. intros q s e'. apply IH.
    + congruence.
Qed.

(** X1. An inclusion of wrapper.h made while [WRAPPER_H] is defined, whatever
    its replacement, succeeds on every file system and at every nesting
    budget: it looks up no file, and changes neither the macros nor the
    output.  The guard is defined before the vendor headers are included, so
    this is the state in which they are expanded: a vendor header that
    includes wrapper.h back gets nothing and does not recurse. *)
Theorem guarded_inclusion_is_inert n fs st :
  is_Some (macros st !! guard) →
  include_wrapper n fs st = Ok (enter path st)
  ∧ macros (enter path st) = macros st
  ∧ output (enter path st) = output st
  ∧ opened (enter path st) = opened st ++ [path]
  ∧ (∀ s, installed fs →
       pp_file (S n) fs path (body_entry s) = Ok (enter path (body_entry s))).
Proof.
  intros [b Hb].
  assert (Hg : defined guard st = true) by (unfold defined; by rewrite Hb).
  split; [by apply include_wrapper_guarded|]. do 3 (split; [done|]).
  intros s Hfs. rewrite pp_file_installed by done.
  apply include_wrapper_guarded, defined_body_entry.
Qed.

Lemma guarded_inclusion_is_inert_witness :
  is_Some (macros predefined_state !! guard)
  ∧ missing bare_fs md_header ∧ missing bare_fs trader_header
  ∧ include_wrapper 0 bare_fs predefined_state
    = Ok (enter path predefined_state).
Proof.
  assert (H : is_Some (macros predefined_state !! guard))
    by (exists "0"%string; reflexivity).
  split; [exact H|]. split; [reflexivity|]. split; [reflexivity|].
  exact (proj1 (guarded_inclusion_is_inert 0 bare_fs predefined_state H)).
Defined.

(** X2. A missing vendor header is reported under its own path.  Without the
    market-data header the wrapper, as main file or included with its guard
    undefined, fails with file-not-found for that header, whatever the
    trading header is; with the market-data tree expanded and the trading
    header missing, it fails with file-not-found for the trading header. *)
Theorem missing_vendor_header_is_reported n fs st :
  defined guard st = false →
  (missing fs md_header →
     include_wrapper (S n) fs st = Err (FileNotFound md_header))
  ∧ (installed fs → missing fs md_header →
       preprocess fs path = Err (FileNotFound md_header))
  ∧ (∀ st1, pp_file (S n) fs md_header (body_entry st) = Ok st1 →
       missing fs trader_header →
       include_wrapper (S n) fs st = Err (FileNotFound trader_header)).
Proof.
  intros Hg. split; [|split].
  - intros Hm. rewrite include_wrapper_fresh by done.
    unfold include_vendor. simpl. by rewrite Hm.
  - intros Hfs Hm. unfold preprocess.
    change include_depth_limit with (S (S 198)).
    rewrite pp_file_installed by done.
    rewrite include_wrapper_fresh by reflexivity.
    unfold include_vendor. simpl. by rewrite Hm.
  - intros st1 H1 Hm. rewrite include_wrapper_fresh by done.
    unfold include_vendor. rewrite H1. cbn [bind]. simpl. by rewrite Hm.
Qed.

Lemma missing_vendor_header_is_reported_witness :
  defined guard init_state = false
  ∧ include_wrapper 1 bare_fs init_state = Err (FileNotFound md_header)
  ∧ include_wrapper 1 partial_fs init_state
    = Err (FileNotFound trader_header).
Proof.
  assert (H : defined guard init_state = false) by reflexivity.
  split; [exact H|]. split.
  - apply (proj1 (missing_vendor_header_is_reported 0 bare_fs init_state H)).
    reflexivity.
  - apply (proj2 (proj2
      (missing_vendor_header_is_reported 0 partial_fs init_state H))
        sample_mid); [vm_compute|]; reflexivity.
Defined.

(** X3. No diagnostic is ever laid at the wrapper's door.  In every
    translation unit on a file system that holds wrapper.h, whatever the
    main file and the vendor headers are, a failure is never a stray
    [#endif], an unterminated conditional or an unknown directive in
    wrapper.h, nor wrapper.h itself not found or rejected: its [#ifndef] and
    [#endif] pair up and every directive in it is understood. *)
Theorem wrapper_is_never_blamed fs main e :
  installed fs →
  preprocess fs main = Err e →
  blamed e ≠ Some path.
Proof. intros Hfs H. by eapply pp_file_never_blames. Qed.

Lemma wrapper_is_never_blamed_witness :
  installed stray_fs
  ∧ preprocess stray_fs "main.cpp" = Err (StrayEndif "main.cpp")
  ∧ blamed (StrayEndif "main.cpp") ≠ Some path.
Proof.
  assert (H0 : installed stray_fs) by reflexivity.
  assert (H1 : preprocess stray_fs "main.cpp" = Err (StrayEndif "main.cpp"))
    by (vm_compute; reflexivity).
  split; [exact H0|]. split; [exact H1|].
  exact (wrapper_is_never_blamed stray_fs "main.cpp" _ H0 H1).
Defined.

(** X4. The guard macro is the only record of an earlier inclusion: after
    [#undef WRAPPER_H], from any state, the next [#include] of the wrapper
    runs both vendor inclusions again, with the guard defined afresh. *)
Theorem undef_guard_reopens_wrapper n fs self st :
  installed fs →
  pp_lines (pp_file (S n) fs) self [DUndef guard; DInclude path] [] st
  = include_vendor n fs (body_entry (undef guard st)).
Proof.
  intros Hfs. cbn [pp_lines pp_step active forallb bind fst snd].
  rewrite pp_file_installed by done.
  rewrite include_wrapper_fresh.
  - by destruct (include_vendor n fs (body_entry (undef guard st))).
  - unfold defined, undef. cbn [macros]. by rewrite lookup_delete_eq.
Qed.

Lemma undef_guard_reopens_wrapper_witness :
  installed sample_fs
  ∧ pp_lines (pp_file 2 sample_fs) "main.cpp"
      [DUndef guard; DInclude path] [] sample_final
    = include_vendor 1 sample_fs (body_entry (undef guard sample_final)).
Proof.
  assert (H0 : installed sample_fs) by reflexivity.
  split; [exact H0|].
  exact (undef_guard_reopens_wrapper 1 sample_fs "main.cpp" sample_final H0).
Defined.
